(** * color-printer: a shallow embedding of [ColorPrinter]

    The development follows [color_printer.h] and [color_printer.cpp]:
    the [PrintColor] enumeration, [GetColorCode], the overloads of
    [PrintColoredMessage], the two formatting helpers [FormatString] and
    [FormatPrintf], and the dot-progress indicator
    [PrintSilentStatusIndicator].

    [std::cout] is modelled as the sequence of operations performed on it
    (insertions of text and flushes), threaded through every printing
    function by a small state monad.  The [float] and [double] overloads
    of [PrintColoredMessage] print through the stream's floating-point
    conversion and are left out. *)

From Stdlib Require Import ZArith String Ascii List Bool Lia.
From Stdlib Require Import DecimalString.
Import ListNotations.

Local Open Scope string_scope.
Local Open Scope Z_scope.

(** ** Characters and strings *)

(** The three control characters the source writes as [\033], [\r] and the
    newline of [std::endl]. *)
Definition ESC : ascii := "027"%char.
Definition CR : ascii := "013"%char.
Definition LF : ascii := "010"%char.
Definition NUL : ascii := "000"%char.

Definition str1 (c : ascii) : string := String c EmptyString.

(** [std::string(n, c)] *)
Fixpoint str_fill (n : nat) (c : ascii) : string :=
  match n with
  | O => EmptyString
  | S n' => String c (str_fill n' c)
  end.

Fixpoint str_take (n : nat) (s : string) : string :=
  match n, s with
  | S n', String c s' => String c (str_take n' s')
  | _, _ => EmptyString
  end.

Fixpoint str_drop (n : nat) (s : string) : string :=
  match n, s with
  | S n', String _ s' => str_drop n' s'
  | _, _ => s
  end.

(** [s.find(c)]: the index of the first occurrence, [None] for [npos]. *)
Fixpoint str_find (c : ascii) (s : string) : option nat :=
  match s with
  | EmptyString => None
  | String d s' =>
      if Ascii.eqb d c then Some O
      else match str_find c s' with
           | Some i => Some (S i)
           | None => None
           end
  end.

(** [s.replace(pos, len, r)] for [pos <= s.size()]; [len] is clipped to the
    end of the string, as [std::string::replace] does. *)
Definition str_replace (s : string) (pos len : nat) (r : string) : string :=
  str_take pos s ++ r ++ str_drop (pos + len) s.

(** The C string held by a character array: the characters before the first
    NUL. *)
Fixpoint c_string (s : string) : string :=
  match s with
  | EmptyString => EmptyString
  | String c s' => if Ascii.eqb c NUL then EmptyString else String c (c_string s')
  end.

(** The number of occurrences of a character. *)
Fixpoint str_count (c : ascii) (s : string) : nat :=
  match s with
  | EmptyString => O
  | String d s' => (if Ascii.eqb d c then 1 else 0) + str_count c s'
  end.

(** All characters of a string satisfy a test. *)
Fixpoint str_all (p : ascii -> bool) (s : string) : bool :=
  match s with
  | EmptyString => true
  | String c s' => p c && str_all p s'
  end.

(** ** The output stream *)

Module Stream.

(** One operation on [std::cout]: [cout << s] or [cout << std::flush]. *)
Inductive op : Type :=
| Put (s : string)
| Flush.

(** The operations performed so far, oldest first. *)
Definition ostream : Type := list op.
Bind Scope list_scope with ostream.

(** A computation that uses [std::cout] and returns an [A]. *)
Definition io (A : Type) : Type := ostream -> A * ostream.

Definition ret {A} (a : A) : io A := fun o => (a, o).

Definition bind {A B} (c : io A) (k : A -> io B) : io B :=
  fun o => let (a, o') := c o in k a o'.

Definition put (s : string) : io unit := fun o => (tt, (o ++ [Put s])%list).

Definition flush : io unit := fun o => (tt, (o ++ [Flush])%list).

(** [std::endl]: a newline, then a flush. *)
Definition endl : io unit := bind (put (str1 LF)) (fun _ => flush).

(** The bytes that reached the stream. *)
Fixpoint written (o : ostream) : string :=
  match o with
  | [] => EmptyString
  | Put s :: o' => s ++ written o'
  | Flush :: o' => written o'
  end.

(** What a computation does when started on a fresh stream. *)
Definition emitted {A} (c : io A) : ostream := snd (c []).

End Stream.

Import Stream.

Declare Scope io_scope.
Delimit Scope io_scope with io.
Notation "x <- c ;; k" := (bind c (fun x => k))
  (at level 61, c at next level, right associativity) : io_scope.
Notation "c ;; k" := (bind c (fun _ => k))
  (at level 61, right associativity) : io_scope.
Local Open Scope io_scope.

(** [for (int i = 0; i < n; i++) body]: the body runs [n] times when [n] is
    positive and not at all otherwise. *)
Fixpoint repeat_io (k : nat) (body : io unit) : io unit :=
  match k with
  | O => ret tt
  | S k' => body ;; repeat_io k' body
  end.

Definition for_upto (n : Z) (body : io unit) : io unit :=
  repeat_io (Z.to_nat n) body.

(** ** [int] *)

(** [countRef++] on a 32-bit [int]; the increment of [INT_MAX] is written
    out as the two's complement wrap-around. *)
Definition INT_MAX : Z := 2147483647.
Definition INT_MIN : Z := -2147483648.

Definition int_wrap (z : Z) : Z := (z - INT_MIN) mod 4294967296 + INT_MIN.

Definition int_incr (z : Z) : Z := int_wrap (z + 1).

(** ** [enum class PrintColor] *)

Inductive PrintColor : Type :=
| RED | GREEN | YELLOW | BLUE | MAGENTA | CYAN | WHITE.

(** An object of type [PrintColor] holds a value of the underlying type
    [int]; the seven enumerators are the values 0 to 6, and a
    [static_cast] gives any other.  The functions below therefore take the
    underlying value. *)
Definition underlying (c : PrintColor) : Z :=
  match c with
  | RED => 0 | GREEN => 1 | YELLOW => 2 | BLUE => 3
  | MAGENTA => 4 | CYAN => 5 | WHITE => 6
  end.

Coercion underlying : PrintColor >-> Z.

Definition enumerator_of (v : Z) : option PrintColor :=
  match v with
  | 0 => Some RED | 1 => Some GREEN | 2 => Some YELLOW | 3 => Some BLUE
  | 4 => Some MAGENTA | 5 => Some CYAN | 6 => Some WHITE
  | _ => None
  end.

Definition all_colors : list PrintColor :=
  [RED; GREEN; YELLOW; BLUE; MAGENTA; CYAN; WHITE].

(** ** [ColorPrinter] *)

Definition reset_code : string := String ESC "[0m".

(** [ColorPrinter::GetColorCode] *)
Definition GetColorCode (color : Z) : string :=
  match enumerator_of color with
  | Some RED => String ESC "[31m"
  | Some GREEN => String ESC "[32m"
  | Some YELLOW => String ESC "[33m"
  | Some BLUE => String ESC "[34m"
  | Some MAGENTA => String ESC "[35m"
  | Some CYAN => String ESC "[36m"
  | Some WHITE => String ESC "[37m"
  | None => String ESC "[0m"
  end.

(** [hasFormatSpecifier]: [message.find('%') != std::string::npos]. *)
Definition has_percent (message : string) : bool :=
  match str_find "%"%char message with
  | Some _ => true
  | None => false
  end.

(** [PrintColoredMessage(PrintColor, const std::string&, const char* )].
    The [const char*] argument is given by the characters it points to;
    [std::string msg_str(message)] copies those before the first NUL. *)
Definition PrintColoredMessage_cstr (color : Z) (type : string)
    (message : string) : io unit :=
  let color_code := GetColorCode color in
  let msg_str := c_string message in
  let hasFormatSpecifier := has_percent msg_str in
  if negb hasFormatSpecifier then
    put color_code ;; put "[" ;; put type ;; put "] " ;; put msg_str ;;
    put reset_code ;; endl
  else
    put color_code ;; put "[" ;; put type ;; put "] " ;; put msg_str ;;
    put reset_code ;; endl.

(** [PrintColoredMessage(PrintColor, const std::string&, const std::string&)] *)
Definition PrintColoredMessage_string (color : Z) (type : string)
    (message : string) : io unit :=
  let color_code := GetColorCode color in
  let hasFormatSpecifier := has_percent message in
  if negb hasFormatSpecifier then
    put color_code ;; put "[" ;; put type ;; put "] " ;; put message ;;
    put reset_code ;; endl
  else
    put color_code ;; put "[" ;; put type ;; put "] " ;; put message ;;
    put reset_code ;; endl.

(** [PrintColoredMessage(PrintColor, const std::string&, bool)] *)
Definition PrintColoredMessage_bool (color : Z) (type : string)
    (value : bool) : io unit :=
  let color_code := GetColorCode color in
  put color_code ;; put "[" ;; put type ;; put "] " ;;
  put (if value then "true" else "false") ;;
  put reset_code ;; endl.

(** [PrintColoredMessage(PrintColor, const std::string&, char)] *)
Definition PrintColoredMessage_char (color : Z) (type : string)
    (value : ascii) : io unit :=
  let color_code := GetColorCode color in
  put color_code ;; put "[" ;; put type ;; put "] " ;; put (str1 value) ;;
  put reset_code ;; endl.

(** [cout << value] for an [int]: an optional minus sign and the decimal
    digits. *)
Definition string_of_int (value : Z) : string :=
  NilZero.string_of_int (Z.to_int value).

(** [PrintColoredMessage(PrintColor, const std::string&, int)] *)
Definition PrintColoredMessage_int (color : Z) (type : string)
    (value : Z) : io unit :=
  let color_code := GetColorCode color in
  put color_code ;; put "[" ;; put type ;; put "] " ;;
  put (string_of_int value) ;;
  put reset_code ;; endl.

(** *** Formatting *)

Definition is_conversion_type (c : ascii) : bool :=
  existsb (Ascii.eqb c)
    ["d"; "i"; "u"; "o"; "x"; "X"; "f"; "F"; "e"; "E"; "g"; "G";
     "a"; "A"; "c"; "s"; "p"; "n"]%char.

Definition is_flag_width_precision (c : ascii) : bool :=
  Ascii.eqb c "-" || Ascii.eqb c "+" || Ascii.eqb c " " || Ascii.eqb c "#"
  || Ascii.eqb c "0"
  || (Ascii.leb "0" c && Ascii.leb c "9")
  || Ascii.eqb c ".".

(** The [while (end_pos < result.length())] loop of [FormatString]: [rest]
    is the part of [result] from [end_pos] on; the loop returns the final
    [end_pos] and [found_specifier]. *)
Fixpoint scan_specifier (rest : string) (end_pos : nat) : nat * bool :=
  match rest with
  | EmptyString => (end_pos, false)
  | String c rest' =>
      if is_conversion_type c then (S end_pos, true)
      else if is_flag_width_precision c then scan_specifier rest' (S end_pos)
      else (end_pos, false)
  end.

(** [vsnprintf] stores into a buffer: the bytes [stored] replace the first
    bytes of [buf], and the buffer keeps its length. *)
Definition str_store (stored buf : string) : string :=
  str_take (String.length buf) (stored ++ str_drop (String.length stored) buf).

(** [s.resize(n)]: the first [n] characters, filled up with NULs when the
    string is shorter. *)
Definition str_resize (n : nat) (s : string) : string :=
  str_take n s ++ str_fill (n - String.length s) NUL.

(** How a call ends: it returns a value, or an exception leaves it. *)
Inductive exception : Type :=
| length_error.

Inductive completion (A : Type) : Type :=
| Returns (a : A)
| Throws (e : exception).

Arguments Returns {A} a.
Arguments Throws {A} e.

Section Formatting.

(** The values a call passes after the format string. *)
Variable Arg : Type.

(** [ss << first] followed by [ss.str()]: the default stream insertion of
    an argument. *)
Variable stream_insert : Arg -> string.

(** [vsnprintf(buf, n, format, args)] of the C library: its return value
    and the bytes it stores into [buf] (none when [n] is 0). *)
Variable vsnprintf : Z -> string -> list Arg -> Z * string.

(** [ColorPrinter::FormatString], the base overload and the template. *)
Fixpoint FormatString (format : string) (args : list Arg) : string :=
  match args with
  | [] => format
  | first :: args =>
      let result := format in
      let result :=
        match str_find "%"%char result with
        | Some pos =>
            let '(end_pos, found_specifier) :=
              scan_specifier (str_drop (pos + 1) result) (pos + 1) in
            if found_specifier then
              let replacement := stream_insert first in
              str_replace result pos (end_pos - pos) replacement
            else
              let replacement := stream_insert first in
              str_replace result pos 1 replacement
        | None => result
        end in
      FormatString result args
  end.

(** [ColorPrinter::FormatPrintf].  [size] is the [int] that [vsnprintf]
    returns.  [size + 1] is an [int] addition, written out with its
    wrap-around as for [countRef++]: at [size = INT_MAX] it gives
    [INT_MIN], which as the [size_t] count of [std::string(size + 1, 0)] is
    beyond [max_size()], so that the constructor throws
    [std::length_error].  A count within the range of [int] is taken to be
    allocated. *)
Definition FormatPrintf (format : string) (args : list Arg)
  : completion string :=
  let size := fst (vsnprintf 0 (c_string format) args) in
  if size <? 0 then Returns EmptyString
  else
    let count := int_wrap (size + 1) in
    if count <? 0 then Throws length_error
    else
      let result := str_fill (Z.to_nat count) NUL in
      let result :=
        str_store (snd (vsnprintf count (c_string format) args)) result in
      Returns (str_resize (Z.to_nat size) result).

(** The template [PrintColoredMessage(PrintColor, const std::string&,
    const char*, T, Args...)]; an exception of [FormatPrintf] leaves the
    function before anything is inserted into the stream. *)
Definition PrintColoredMessage_fmt (color : Z) (type : string)
    (format : string) (first : Arg) (args : list Arg)
  : io (completion unit) :=
  let color_code := GetColorCode color in
  match FormatPrintf format (first :: args) with
  | Throws e => ret (Throws e)
  | Returns message_str =>
      put color_code ;; put "[" ;; put type ;; put "] " ;; put message_str ;;
      put reset_code ;; endl ;;
      ret (Returns tt)
  end.

End Formatting.

Arguments FormatString {Arg} stream_insert format args.
Arguments FormatPrintf {Arg} vsnprintf format args.
Arguments PrintColoredMessage_fmt {Arg} vsnprintf color type format first args.

(** [ColorPrinter::PrintSilentStatusIndicator]; the reference parameter
    [countRef] is passed in and its final value is returned. *)
Definition clear_line : string :=
  String CR ("                      " ++ str1 CR).

Definition PrintSilentStatusIndicator (color : Z) (isSilent : bool)
    (countRef : Z) : io Z :=
  if isSilent then
    let countRef := int_incr countRef in
    countRef <- (if countRef >? 100
                 then put clear_line ;; flush ;; ret 1
                 else ret countRef) ;;
    let color_code := GetColorCode color in
    put (str1 CR) ;; put color_code ;; put "[INFO] " ;;
    for_upto countRef (put ".") ;;
    put reset_code ;; flush ;;
    ret countRef
  else ret countRef.

(** ** A small C library for closed examples

    [vsnprintf] belongs to the C library, so the model above takes it as a
    parameter.  The closed examples below run the code against this small
    stand-in: it converts [%d], [%i], [%s], [%c] and [%%]; what it does
    with any other directive is a policy, either reporting an error (a
    negative return value) or copying the [%] through. *)

Module MiniLibc.

Inductive arg : Type :=
| ArgInt (z : Z)
| ArgStr (s : string)
| ArgChar (c : ascii).

(** [ss << first] at these three types. *)
Definition insert (a : arg) : string :=
  match a with
  | ArgInt z => string_of_int z
  | ArgStr s => s
  | ArgChar c => str1 c
  end.

Inductive policy : Type := Reject | Echo.

Definition convert (t : ascii) (args : list arg) : option (string * list arg) :=
  match args with
  | ArgInt z :: args' =>
      if Ascii.eqb t "d" || Ascii.eqb t "i" then Some (string_of_int z, args')
      else None
  | ArgStr s :: args' =>
      if Ascii.eqb t "s" then Some (s, args') else None
  | ArgChar c :: args' =>
      if Ascii.eqb t "c" then Some (str1 c, args') else None
  | [] => None
  end.

Fixpoint format (p : policy) (fmt : string) (args : list arg) : option string :=
  match fmt with
  | EmptyString => Some EmptyString
  | String c rest =>
      if negb (Ascii.eqb c "%") then option_map (String c) (format p rest args)
      else
        match rest with
        | EmptyString =>
            match p with Reject => None | Echo => Some "%" end
        | String t rest' =>
            if Ascii.eqb t "%" then
              option_map (String "%") (format p rest' args)
            else
              match convert t args with
              | Some (text, args') =>
                  option_map (append text) (format p rest' args')
              | None =>
                  match p with
                  | Reject => None
                  | Echo => option_map (String "%") (format p rest args)
                  end
              end
        end
  end.

Definition vsnprintf (p : policy) (n : Z) (fmt : string) (args : list arg)
  : Z * string :=
  match format p fmt args with
  | None => (-1, EmptyString)
  | Some text =>
      (Z.of_nat (String.length text),
       if n <=? 0 then EmptyString
       else str_take (Z.to_nat (n - 1)) text ++ str1 NUL)
  end.

End MiniLibc.

(** ** The specification's vocabulary *)

Module Spec.

(** The escape codes as the specification's external-interface section
    lists them. *)
Definition ansi_code (c : PrintColor) : string :=
  match c with
  | RED => String ESC "[31m"
  | GREEN => String ESC "[32m"
  | YELLOW => String ESC "[33m"
  | BLUE => String ESC "[34m"
  | MAGENTA => String ESC "[35m"
  | CYAN => String ESC "[36m"
  | WHITE => String ESC "[37m"
  end.

Definition ansi_reset : string := String ESC "[0m".

(** The output shape of one colored line:
    color, bracketed label, space, payload, reset, newline. *)
Definition colored_line (code label payload : string) : string :=
  code ++ "[" ++ label ++ "] " ++ payload ++ ansi_reset ++ str1 LF.

Definition is_digit (c : ascii) : bool := Ascii.leb "0" c && Ascii.leb c "9".

Fixpoint digits_then_m (s : string) : bool :=
  match s with
  | EmptyString => false
  | String c EmptyString => Ascii.eqb c "m"
  | String c s' => is_digit c && digits_then_m s'
  end.

(** A well-formed color escape sequence: ESC, an opening bracket, at least
    one digit, and the final [m]. *)
Definition is_escape_sequence (s : string) : bool :=
  match s with
  | String e (String b (String d rest)) =>
      Ascii.eqb e ESC && Ascii.eqb b "[" && is_digit d && digits_then_m rest
  | _ => false
  end.

(** The widest line the progress indicator renders: the prefix and 100
    dots. *)
Definition max_rendered_width : nat := String.length "[INFO] " + 100.

End Spec.

(** ** Vocabulary of the statements *)

(** The operations of one colored line: the insertions of
    [cout << color_code << "[" << type << "] " << payload << reset_code],
    then [std::endl]. *)
Definition line_ops (code label payload : string) : ostream :=
  [Put code; Put "["; Put label; Put "] "; Put payload; Put reset_code;
   Put (str1 LF); Flush].

(** The operations of one rendering of the progress line with [n] dots. *)
Definition render_ops (color : Z) (n : Z) : ostream :=
  ([Put (str1 CR); Put (GetColorCode color); Put "[INFO] "]
   ++ repeat (Put ".") (Z.to_nat n)
   ++ [Put reset_code; Flush])%list.

(** The operations of the clear sequence. *)
Definition clear_ops : ostream := [Put clear_line; Flush].

(** A run of successive calls on one counter cell, one call per flag; the
    result lists the value of the cell after each call. *)
Fixpoint indicator_calls (color : Z) (flags : list bool) (countRef : Z)
  : io (list Z) :=
  match flags with
  | [] => ret []
  | isSilent :: flags' =>
      countRef' <- PrintSilentStatusIndicator color isSilent countRef ;;
      rest <- indicator_calls color flags' countRef' ;;
      ret (countRef' :: rest)
  end.

(** The integers [lo], [lo + 1], ... ([len] of them). *)
Definition Zrange (lo : Z) (len : nat) : list Z :=
  map (fun i => lo + Z.of_nat i) (seq 0 len).

(** The spaces between the two carriage returns of the clear sequence. *)
Definition clear_spaces : string :=
  str_take (String.length clear_line - 2) (str_drop 1 clear_line).

(** ** Closed runs *)

Example string_of_int_examples :
  string_of_int 0 = "0" /\ string_of_int 85 = "85" /\ string_of_int (-7) = "-7".
Proof. repeat split. Qed.

Example FormatPrintf_percent :
  FormatPrintf (MiniLibc.vsnprintf MiniLibc.Reject) "%d%%" [MiniLibc.ArgInt 85]
  = Returns "85%".
Proof. reflexivity. Qed.

Example FormatString_two_arguments :
  FormatString MiniLibc.insert "id %d, name %-8s."
    [MiniLibc.ArgInt 7; MiniLibc.ArgStr "ann"]
  = "id 7, name ann.".
Proof. reflexivity. Qed.

Example FormatString_fewer_arguments :
  FormatString MiniLibc.insert "%d and %d" [MiniLibc.ArgInt 7] = "7 and %d".
Proof. reflexivity. Qed.

Example indicator_first_call :
  PrintSilentStatusIndicator GREEN true 0 []
  = (1, [Put (str1 CR); Put (String ESC "[32m"); Put "[INFO] "; Put ".";
         Put (String ESC "[0m"); Flush]).
Proof. reflexivity. Qed.

(** ** Strings *)

Lemma str_app_assoc (a b c : string) : (a ++ b) ++ c = a ++ b ++ c.
Proof. induction a as [|x a IH]; simpl; [reflexivity | now rewrite IH]. Qed.

Lemma str_app_nil_r (a : string) : a ++ "" = a.
Proof. induction a as [|x a IH]; simpl; [reflexivity | now rewrite IH]. Qed.

Lemma str_app_inv_head (a b c : string) : a ++ b = a ++ c -> b = c.
Proof.
  induction a as [|x a IH]; simpl; intros H; [exact H|].
  injection H as H. auto.
Qed.

Lemma str_take_app (a b : string) : str_take (String.length a) (a ++ b) = a.
Proof. induction a as [|x a IH]; simpl; [now destruct b | now rewrite IH]. Qed.

Lemma str_drop_app (a b : string) (k : nat) :
  str_drop (String.length a + k) (a ++ b) = str_drop k b.
Proof. induction a as [|x a IH]; simpl; [reflexivity | exact IH]. Qed.

Lemma str_find_app (c : ascii) (a b : string) :
  str_find c a = None ->
  str_find c (a ++ String c b) = Some (String.length a).
Proof.
  induction a as [|x a IH]; simpl.
  - now rewrite Ascii.eqb_refl.
  - destruct (Ascii.eqb x c); [discriminate|].
    destruct (str_find c a); [discriminate|].
    intros _. now rewrite IH.
Qed.

Lemma c_string_no_nul (s : string) : str_find NUL s = None -> c_string s = s.
Proof.
  induction s as [|x s IH]; simpl; [reflexivity|].
  destruct (Ascii.eqb x NUL); [discriminate|].
  destruct (str_find NUL s); [discriminate|].
  intros _. now rewrite IH.
Qed.

Lemma c_string_app_nul (a b : string) :
  str_find NUL a = None -> c_string (a ++ String NUL b) = a.
Proof.
  induction a as [|x a IH]; simpl; [reflexivity|].
  destruct (Ascii.eqb x NUL); [discriminate|].
  destruct (str_find NUL a); [discriminate|].
  intros _. now rewrite IH.
Qed.

Lemma str_count_app (c : ascii) (a b : string) :
  str_count c (a ++ b) = (str_count c a + str_count c b)%nat.
Proof. induction a as [|x a IH]; simpl; [reflexivity | rewrite IH; lia]. Qed.

(** ** The stream *)

Lemma written_app (o1 o2 : ostream) :
  written (o1 ++ o2) = written o1 ++ written o2.
Proof.
  induction o1 as [|[s|] o1 IH]; simpl; try assumption; [reflexivity|].
  now rewrite IH, str_app_assoc.
Qed.

Lemma written_line_ops (code label payload : string) :
  written (line_ops code label payload) = Spec.colored_line code label payload.
Proof. reflexivity. Qed.

Lemma repeat_io_put (k : nat) (s : string) (o : ostream) :
  repeat_io k (put s) o = (tt, (o ++ repeat (Put s) k)%list).
Proof.
  revert o. induction k as [|k IH]; intros o; simpl.
  - unfold ret. now rewrite app_nil_r.
  - unfold bind, put at 1. rewrite IH. now rewrite <- app_assoc.
Qed.

Lemma written_repeat_dot (k : nat) :
  str_count "." (written (repeat (Put ".") k)) = k.
Proof. induction k as [|k IH]; simpl; [reflexivity | now rewrite IH]. Qed.

(** Every printing function appends to the stream it is given. *)

Lemma put_line (code label payload : string) (o : ostream) :
  (put code ;; put "[" ;; put label ;; put "] " ;; put payload ;;
   put reset_code ;; endl) o
  = (tt, (o ++ line_ops code label payload)%list).
Proof.
  unfold bind, endl, bind, put, flush, line_ops. simpl.
  now rewrite <- !app_assoc.
Qed.

Lemma PrintColoredMessage_string_ops color type message o :
  PrintColoredMessage_string color type message o
  = (tt, (o ++ line_ops (GetColorCode color) type message)%list).
Proof.
  unfold PrintColoredMessage_string.
  destruct (negb (has_percent message)); apply put_line.
Qed.

Lemma PrintColoredMessage_cstr_ops color type message o :
  PrintColoredMessage_cstr color type message o
  = (tt, (o ++ line_ops (GetColorCode color) type (c_string message))%list).
Proof.
  unfold PrintColoredMessage_cstr.
  destruct (negb (has_percent (c_string message))); apply put_line.
Qed.

Lemma PrintColoredMessage_bool_ops color type value o :
  PrintColoredMessage_bool color type value o
  = (tt, (o ++ line_ops (GetColorCode color) type
                 (if value then "true" else "false"))%list).
Proof. unfold PrintColoredMessage_bool. apply put_line. Qed.

Lemma PrintColoredMessage_fmt_ops {Arg} vsnprintf color type format
    (first : Arg) args message_str o :
  FormatPrintf vsnprintf format (first :: args) = Returns message_str ->
  PrintColoredMessage_fmt vsnprintf color type format first args o
  = (Returns tt, (o ++ line_ops (GetColorCode color) type message_str)%list).
Proof.
  intros E. unfold PrintColoredMessage_fmt. rewrite E.
  unfold bind, endl, bind, put, flush, ret, line_ops. simpl.
  now rewrite <- !app_assoc.
Qed.

(** After one of the [_ops] equations, turn the operations into text. *)
Ltac line_written :=
  cbn [snd]; rewrite written_app, written_line_ops.

(** ** The color table *)

Lemma GetColorCode_enumerator (c : PrintColor) :
  GetColorCode c = Spec.ansi_code c.
Proof. destruct c; reflexivity. Qed.

Lemma enumerator_of_outside (v : Z) :
  v < 0 \/ 6 < v -> enumerator_of v = None.
Proof.
  intros H. destruct v as [|p|p]; [lia| |reflexivity].
  do 3 (destruct p as [p|p|]; try reflexivity; try lia).
Qed.

Lemma enumerator_of_underlying (c : PrintColor) :
  enumerator_of (underlying c) = Some c.
Proof. destruct c; reflexivity. Qed.

Lemma all_colors_complete (c : PrintColor) : In c all_colors.
Proof. destruct c; simpl; tauto. Qed.

(** C2: for each of the seven colors, every label and every string
    payload, [PrintColoredMessage] writes exactly the color's escape code
    (ESC[31m red to ESC[37m white, as the specification tabulates them),
    then the bracketed label, a space and the payload, then the reset code
    ESC[0m, then a newline. *)
Theorem PrintColoredMessage_string_output
    (c : PrintColor) (label payload : string) (o : ostream) :
  GetColorCode c = Spec.ansi_code c /\
  written (snd (PrintColoredMessage_string c label payload o))
  = written o ++ Spec.ansi_code c ++ "[" ++ label ++ "] " ++ payload
      ++ Spec.ansi_reset ++ str1 LF.
Proof.
  split; [apply GetColorCode_enumerator|].
  rewrite PrintColoredMessage_string_ops. line_written.
  now rewrite GetColorCode_enumerator.
Qed.

(** C6: a payload that contains a percent sign, given to either
    non-formatted string overload, is printed verbatim, whatever else it
    contains: the [std::string] overload writes every such payload
    unchanged, and so does the [const char*] overload for every such
    payload it can be given, a NUL-free character sequence, be it followed
    by the end of the array or by a terminating NUL and further bytes.  The
    line is the same function of the payload as for a payload without a
    percent sign, for both overloads. *)
Theorem percent_payload_printed_verbatim
    (color : Z) (label payload : string) (o : ostream) :
  has_percent payload = true ->
  written (snd (PrintColoredMessage_string color label payload o))
  = written o ++ Spec.colored_line (GetColorCode color) label payload
  /\
  (str_find NUL payload = None ->
   written (snd (PrintColoredMessage_cstr color label payload o))
   = written o ++ Spec.colored_line (GetColorCode color) label payload
   /\
   forall after : string,
     written (snd (PrintColoredMessage_cstr color label
                     (payload ++ String NUL after) o))
     = written o ++ Spec.colored_line (GetColorCode color) label payload)
  /\
  (forall plain : string,
      has_percent plain = false ->
      written (snd (PrintColoredMessage_string color label plain o))
      = written o ++ Spec.colored_line (GetColorCode color) label plain
      /\
      (str_find NUL plain = None ->
       written (snd (PrintColoredMessage_cstr color label plain o))
       = written o ++ Spec.colored_line (GetColorCode color) label plain)).
Proof.
  intros _. split; [|split].
  - rewrite PrintColoredMessage_string_ops. now line_written.
  - intros Hnul. split.
    + rewrite PrintColoredMessage_cstr_ops. line_written.
      now rewrite (c_string_no_nul _ Hnul).
    + intros after. rewrite PrintColoredMessage_cstr_ops. line_written.
      now rewrite (c_string_app_nul _ _ Hnul).
  - intros plain _. split.
    + rewrite PrintColoredMessage_string_ops. now line_written.
    + intros Hnul. rewrite PrintColoredMessage_cstr_ops. line_written.
      now rewrite (c_string_no_nul _ Hnul).
Qed.

Lemma percent_payload_printed_verbatim_witness :
  written (snd (PrintColoredMessage_string YELLOW "INFO" "load: 100%" []))
  = String ESC "[33m[INFO] load: 100%" ++ String ESC "[0m" ++ str1 LF
  /\
  written (snd (PrintColoredMessage_cstr YELLOW "INFO" "load: 100%" []))
  = String ESC "[33m[INFO] load: 100%" ++ String ESC "[0m" ++ str1 LF
  /\
  written (snd (PrintColoredMessage_cstr YELLOW "INFO" "load: full" []))
  = String ESC "[33m[INFO] load: full" ++ String ESC "[0m" ++ str1 LF.
Proof.
  destruct (percent_payload_printed_verbatim YELLOW "INFO" "load: 100%" []
              eq_refl) as (Hs & Hc & Hp).
  split; [exact Hs|]. split; [exact (proj1 (Hc eq_refl))|].
  exact (proj2 (Hp "load: full" eq_refl) eq_refl).
Defined.

(** C7: a call of the progress indicator with flag false leaves the counter
    cell as it is and writes nothing, whatever the color, the value of the
    cell and the state of the stream. *)
Theorem PrintSilentStatusIndicator_false_noop
    (color : Z) (countRef : Z) (o : ostream) :
  PrintSilentStatusIndicator color false countRef o = (countRef, o).
Proof. reflexivity. Qed.

(** C8: the bool overload prints the word true for [true] and the word false
    for [false], and never the digit 1 or 0 in their place. *)
Theorem PrintColoredMessage_bool_words
    (color : Z) (label : string) (value : bool) (o : ostream) :
  written (snd (PrintColoredMessage_bool color label value o))
  = written o ++ Spec.colored_line (GetColorCode color) label
                   (if value then "true" else "false")
  /\
  written (snd (PrintColoredMessage_bool color label value o))
  <> written o ++ Spec.colored_line (GetColorCode color) label
                    (if value then "1" else "0").
Proof.
  assert (E : written (snd (PrintColoredMessage_bool color label value o))
              = written o ++ Spec.colored_line (GetColorCode color) label
                               (if value then "true" else "false")).
  { rewrite PrintColoredMessage_bool_ops. now line_written. }
  split; [exact E|].
  rewrite E. unfold Spec.colored_line. intros H.
  apply str_app_inv_head, str_app_inv_head in H.
  change ("[" ++ label ++ "] " ++ ?p ++ ?r)
    with (String "[" (label ++ "] " ++ p ++ r)) in H.
  injection H as H.
  apply str_app_inv_head in H.
  destruct value; discriminate H.
Qed.

(** C10: [GetColorCode] is total on the values of its argument: it always
    returns a well-formed escape sequence; on each of the seven enumerators
    it returns that color's own sequence, which is not the reset sequence,
    and the seven are pairwise distinct; on every value outside the seven
    enumerators it returns the reset sequence ESC[0m. *)
Theorem GetColorCode_total (v : Z) :
  Spec.is_escape_sequence (GetColorCode v) = true /\
  (forall c : PrintColor,
      v = underlying c ->
      GetColorCode v = Spec.ansi_code c /\ GetColorCode v <> reset_code) /\
  (v < 0 \/ 6 < v -> GetColorCode v = reset_code) /\
  NoDup (map (fun c : PrintColor => GetColorCode c) all_colors).
Proof.
  repeat split.
  - unfold GetColorCode. destruct (enumerator_of v) as [[]|]; reflexivity.
  - subst v. apply GetColorCode_enumerator.
  - subst v. destruct c; discriminate.
  - intros H. unfold GetColorCode. now rewrite (enumerator_of_outside v H).
  - simpl. repeat constructor; simpl; intuition discriminate.
Qed.

Lemma GetColorCode_total_witness :
  GetColorCode 7 = String ESC "[0m" /\
  GetColorCode (-1) = String ESC "[0m" /\
  GetColorCode 2 = String ESC "[33m".
Proof.
  split; [|split].
  - apply (GetColorCode_total 7). right. reflexivity.
  - apply (GetColorCode_total (-1)). left. reflexivity.
  - apply (proj1 (proj2 (GetColorCode_total 2)) YELLOW). reflexivity.
Defined.

(** ** The progress indicator *)

Lemma int_incr_in_range (n : Z) : INT_MIN <= n < INT_MAX -> int_incr n = n + 1.
Proof.
  unfold int_incr, int_wrap, INT_MIN, INT_MAX. intros H.
  rewrite Z.mod_small; lia.
Qed.

Lemma render_tail (color : Z) (n : Z) (o : ostream) :
  (put (str1 CR) ;; put (GetColorCode color) ;; put "[INFO] " ;;
   for_upto n (put ".") ;; put reset_code ;; flush ;; ret n) o
  = (n, (o ++ render_ops color n)%list).
Proof.
  unfold bind, for_upto, put at 1 2 3. rewrite repeat_io_put.
  unfold put, flush, ret, render_ops.
  now rewrite <- !app_assoc.
Qed.

Lemma indicator_true_render (color n : Z) (o : ostream) :
  int_incr n <= 100 ->
  PrintSilentStatusIndicator color true n o
  = (int_incr n, (o ++ render_ops color (int_incr n))%list).
Proof.
  intros H. unfold PrintSilentStatusIndicator.
  destruct (int_incr n >? 100) eqn:E; [apply Z.gtb_lt in E; lia|].
  unfold bind at 1. unfold ret at 1. apply render_tail.
Qed.

Lemma indicator_true_clear (color n : Z) (o : ostream) :
  100 < int_incr n ->
  PrintSilentStatusIndicator color true n o
  = (1, (o ++ clear_ops ++ render_ops color 1)%list).
Proof.
  intros H. unfold PrintSilentStatusIndicator.
  destruct (int_incr n >? 100) eqn:E;
    [|rewrite Z.gtb_ltb in E; apply Z.ltb_ge in E; lia].
  unfold bind at 1. unfold bind at 1 2, put at 1, flush at 1, ret at 1.
  rewrite render_tail. unfold clear_ops. now rewrite <- !app_assoc.
Qed.

Lemma Zrange_cons (lo : Z) (len : nat) :
  Zrange lo (S len) = lo :: Zrange (lo + 1) len.
Proof.
  unfold Zrange. simpl. rewrite Z.add_0_r. f_equal.
  rewrite <- seq_shift, map_map. apply map_ext. intros i. lia.
Qed.

Lemma last_cons_default {A} (l : list A) (x d : A) :
  last (x :: l) d = last l x.
Proof.
  revert x d. induction l as [|y l IH]; intros x d; [reflexivity|].
  change (last (x :: y :: l) d) with (last (y :: l) d).
  now rewrite !IH.
Qed.

Lemma indicator_calls_app color (f1 f2 : list bool) (n : Z) (o : ostream) :
  indicator_calls color (f1 ++ f2) n o
  = let (l1, o1) := indicator_calls color f1 n o in
    let (l2, o2) := indicator_calls color f2 (last l1 n) o1 in
    ((l1 ++ l2)%list, o2).
Proof.
  revert n o. induction f1 as [|b f1 IH]; intros n o.
  - simpl. unfold ret. now destruct (indicator_calls color f2 n o).
  - simpl. unfold bind.
    destruct (PrintSilentStatusIndicator color b n o) as [n1 o1].
    rewrite IH.
    destruct (indicator_calls color f1 n1 o1) as [l1 o2].
    unfold ret. rewrite last_cons_default.
    destruct (indicator_calls color f2 (last l1 n1) o2) as [l2 o3].
    reflexivity.
Qed.

Lemma indicator_calls_below_cap color (k : nat) (n : Z) (o : ostream) :
  0 <= n -> n + Z.of_nat k <= 100 ->
  indicator_calls color (repeat true k) n o
  = (Zrange (n + 1) k,
     (o ++ flat_map (render_ops color) (Zrange (n + 1) k))%list).
Proof.
  revert n o. induction k as [|k IH]; intros n o H0 H100.
  - simpl. unfold ret. now rewrite app_nil_r.
  - cbn [repeat indicator_calls]. unfold bind.
    rewrite indicator_true_render;
      rewrite int_incr_in_range by (unfold INT_MIN, INT_MAX; lia); [|lia].
    rewrite IH by lia. unfold ret.
    rewrite Zrange_cons. cbn [flat_map]. now rewrite <- app_assoc.
Qed.

Lemma last_Zrange (lo : Z) (len : nat) (d : Z) :
  last (Zrange lo (S len)) d = lo + Z.of_nat len.
Proof.
  unfold Zrange. rewrite seq_S, map_app. cbn [map].
  now rewrite last_last.
Qed.

Lemma GetColorCode_no_dot (color : Z) : str_count "." (GetColorCode color) = O.
Proof. unfold GetColorCode. destruct (enumerator_of color) as [[]|]; reflexivity. Qed.

Lemma render_ops_dots (color n : Z) :
  str_count "." (written (render_ops color n)) = Z.to_nat n.
Proof.
  unfold render_ops. rewrite !written_app. cbn [written].
  rewrite !str_count_app, GetColorCode_no_dot, written_repeat_dot.
  cbn. lia.
Qed.

(** C1: from a counter cell holding 0, one hundred calls with flag true
    leave the values 1, 2, ..., 100 in the cell in this order, the call that
    leaves [n] rendering a carriage return, the color code, the prefix
    [[INFO] ], exactly [n] dots and the reset code, without a newline, and
    then flushing; the 101st call clears the line, leaves 1 (not 101) in
    the cell and renders a single dot. *)
Theorem indicator_hundred_and_one_calls (color : Z) (o : ostream) :
  indicator_calls color (repeat true 101) 0 o
  = ((Zrange 1 100 ++ [1])%list,
     (o ++ flat_map (render_ops color) (Zrange 1 100)
        ++ clear_ops ++ render_ops color 1)%list).
Proof.
  change (repeat true 101) with (repeat true 100 ++ [true])%list.
  rewrite indicator_calls_app.
  rewrite (indicator_calls_below_cap color 100 0 o) by lia.
  change (0 + 1) with 1.
  rewrite (last_Zrange 1 99 0).
  cbn [indicator_calls]. unfold bind.
  rewrite indicator_true_clear by reflexivity.
  unfold ret. now rewrite <- app_assoc.
Qed.

(** C3 (the code at counter 100): the call increments the cell past 100,
    emits a carriage return, 22 spaces and a carriage return, flushes,
    resets the cell to 1 and renders one dot.  The 22 spaces are fewer than
    the 107 columns of the widest rendered line, the prefix and 100 dots,
    which the comment on the clearing statement names as its extent. *)
Theorem indicator_clear_sequence_at_rollover (color : Z) (o : ostream) :
  PrintSilentStatusIndicator color true 100 o
  = (1, (o ++ [Put (String CR (clear_spaces ++ str1 CR)); Flush]
           ++ render_ops color 1)%list)
  /\ clear_spaces = str_fill 22 " "
  /\ Spec.max_rendered_width = 107%nat
  /\ (String.length clear_spaces < Spec.max_rendered_width)%nat.
Proof.
  split; [|repeat split; cbn; lia].
  now rewrite indicator_true_clear.
Qed.

(** C9: if the counter cell holds a value between 0 and 100, then after one
    call, with either flag, it again holds a value between 0 and 100; after
    a call with flag true the value lies between 1 and 100 and is the
    number of dots in the text the call has just written. *)
Theorem indicator_counter_invariant
    (color : Z) (isSilent : bool) (n : Z) (o : ostream) :
  0 <= n <= 100 ->
  let call := PrintSilentStatusIndicator color isSilent n in
  0 <= fst (call o) <= 100 /\
  snd (call o) = (o ++ emitted call)%list /\
  (isSilent = true ->
   1 <= fst (call o) <= 100 /\
   Z.of_nat (str_count "." (written (emitted call))) = fst (call o)).
Proof.
  intros Hn call. subst call. unfold emitted. destruct isSilent.
  - assert (Hi : int_incr n = n + 1)
      by (apply int_incr_in_range; unfold INT_MIN, INT_MAX; lia).
    destruct (Z.eq_dec n 100) as [->|Hne].
    + rewrite !indicator_true_clear by reflexivity. cbn [fst snd app].
      repeat split; try lia.
      rewrite written_app. cbn [clear_ops written].
      rewrite !str_count_app, render_ops_dots. reflexivity.
    + rewrite !indicator_true_render by lia. cbn [fst snd app].
      rewrite Hi. repeat split; try lia.
      rewrite render_ops_dots. lia.
  - cbn. rewrite app_nil_r. repeat split; try lia; discriminate.
Qed.

Lemma indicator_counter_invariant_witness :
  fst (PrintSilentStatusIndicator BLUE true 41 []) = 42 /\
  Z.of_nat (str_count "."
              (written (emitted (PrintSilentStatusIndicator BLUE true 41))))
  = 42.
Proof.
  assert (H : 0 <= 41 <= 100) by lia.
  destruct (indicator_counter_invariant BLUE true 41 [] H) as (_ & _ & Ht).
  destruct (Ht eq_refl) as [_ Hd].
  split; [reflexivity | exact Hd].
Defined.

(** ** Formatting *)

Lemma flag_is_not_conversion_type (c : ascii) :
  is_flag_width_precision c = true -> is_conversion_type c = false.
Proof.
  destruct c as [[] [] [] [] [] [] [] []]; intros H;
    solve [reflexivity | discriminate H].
Qed.

Lemma scan_specifier_invalid (skipped : string) (c : ascii) (tail : string)
    (end_pos : nat) :
  str_all is_flag_width_precision skipped = true ->
  is_conversion_type c = false ->
  is_flag_width_precision c = false ->
  scan_specifier (skipped ++ String c tail) end_pos
  = ((end_pos + String.length skipped)%nat, false).
Proof.
  intros Hs Hc Hf. revert end_pos Hs.
  induction skipped as [|x skipped IH]; intros end_pos Hs; simpl.
  - rewrite Hc, Hf. now rewrite Nat.add_0_r.
  - simpl in Hs. apply andb_prop in Hs. destruct Hs as [Hx Hs].
    rewrite (flag_is_not_conversion_type x Hx), Hx, IH by assumption.
    f_equal. lia.
Qed.

Section FormatStringFacts.

Context {Arg : Type} (stream_insert : Arg -> string).

(** One step of [FormatString] on a format whose first percent sign
    heads no valid specifier. *)
Lemma FormatString_step_fallback (pre suffix : string) (first : Arg)
    (rest : list Arg) :
  str_find "%"%char pre = None ->
  snd (scan_specifier suffix (String.length pre + 1)) = false ->
  FormatString stream_insert (pre ++ String "%" suffix) (first :: rest)
  = FormatString stream_insert (pre ++ stream_insert first ++ suffix) rest.
Proof.
  intros Hpre Hscan. cbn [FormatString].
  rewrite (str_find_app _ pre suffix Hpre).
  rewrite str_drop_app. cbn [str_drop].
  destruct (scan_specifier suffix (String.length pre + 1))
    as [end_pos found] eqn:E.
  cbn [snd] in Hscan. subst found.
  unfold str_replace.
  now rewrite str_take_app, str_drop_app.
Qed.

End FormatStringFacts.

(** C4, on the formatted emission path: the template [PrintColoredMessage]
    formats with [FormatPrintf], so what it prints for a percent sign
    followed by an invalid character is what the C library's [vsnprintf]
    makes of it.  For the format [%!] and the argument 5 the scanner of
    [FormatString] finds no specifier and [FormatString] itself gives [5!];
    the emitted line carries an empty payload under a library that reports
    the directive as an error, and the text [%!] under one that copies it
    through, in neither case the text [5!]. *)
Lemma formatted_emission_does_not_fall_back :
  snd (scan_specifier "!" 1) = false /\
  FormatString MiniLibc.insert "%!" [MiniLibc.ArgInt 5] = "5!" /\
  emitted (PrintColoredMessage_fmt (MiniLibc.vsnprintf MiniLibc.Reject)
             RED "INFO" "%!" (MiniLibc.ArgInt 5) [])
  <> line_ops (GetColorCode RED) "INFO" "5!" /\
  emitted (PrintColoredMessage_fmt (MiniLibc.vsnprintf MiniLibc.Echo)
             RED "INFO" "%!" (MiniLibc.ArgInt 5) [])
  <> line_ops (GetColorCode RED) "INFO" "5!".
Proof.
  repeat split; intros H; vm_compute in H; discriminate H.
Qed.

(** C4, as amended: in [FormatString], for any format string whose first
    percent sign is followed by flag, width and precision characters and
    then by a character that is neither such a character nor a conversion
    type, the substitution of the first argument replaces just the percent
    sign by the argument's default stream rendering, and formatting goes on
    with the remaining arguments. *)
Theorem FormatString_fallback {Arg : Type} (stream_insert : Arg -> string)
    (pre skipped : string) (c : ascii) (tail : string)
    (first : Arg) (rest : list Arg) :
  str_find "%"%char pre = None ->
  str_all is_flag_width_precision skipped = true ->
  is_conversion_type c = false ->
  is_flag_width_precision c = false ->
  FormatString stream_insert
    (pre ++ String "%" (skipped ++ String c tail)) (first :: rest)
  = FormatString stream_insert
      (pre ++ stream_insert first ++ skipped ++ String c tail) rest.
Proof.
  intros Hpre Hs Hc Hf.
  apply FormatString_step_fallback; [exact Hpre|].
  now rewrite scan_specifier_invalid.
Qed.

Lemma FormatString_fallback_witness :
  FormatString MiniLibc.insert "rate: %-5!" [MiniLibc.ArgInt 42]
  = "rate: 42-5!".
Proof.
  apply (FormatString_fallback MiniLibc.insert "rate: " "-5" "!" ""
           (MiniLibc.ArgInt 42) []); reflexivity.
Defined.

(** C5: whenever [vsnprintf] reports failure by a negative size, the
    formatted payload is the empty string, and the call returns, without an
    exception, after printing the line all the same: the color code, the
    bracketed label and a space, no content, the reset code and a
    newline. *)
Theorem format_failure_prints_empty_payload {Arg : Type}
    (vsnprintf : Z -> string -> list Arg -> Z * string)
    (color : Z) (label format : string) (first : Arg) (args : list Arg)
    (o : ostream) :
  fst (vsnprintf 0 (c_string format) (first :: args)) < 0 ->
  FormatPrintf vsnprintf format (first :: args) = Returns "" /\
  PrintColoredMessage_fmt vsnprintf color label format first args o
  = (Returns tt, (o ++ line_ops (GetColorCode color) label "")%list) /\
  written (snd (PrintColoredMessage_fmt vsnprintf color label format
                  first args o))
  = written o ++ GetColorCode color ++ "[" ++ label ++ "] "
      ++ Spec.ansi_reset ++ str1 LF.
Proof.
  intros Hneg.
  assert (E : FormatPrintf vsnprintf format (first :: args) = Returns "").
  { unfold FormatPrintf. apply Z.ltb_lt in Hneg. now rewrite Hneg. }
  rewrite (PrintColoredMessage_fmt_ops _ _ _ _ _ _ _ _ E).
  repeat split; [exact E|]. line_written. reflexivity.
Qed.

Lemma format_failure_prints_empty_payload_witness :
  written (snd (PrintColoredMessage_fmt (MiniLibc.vsnprintf MiniLibc.Reject)
                  RED "ERROR" "%y" (MiniLibc.ArgInt 5) [] []))
  = String ESC "[31m[ERROR] " ++ String ESC "[0m" ++ str1 LF.
Proof.
  apply (format_failure_prints_empty_payload
           (MiniLibc.vsnprintf MiniLibc.Reject) RED "ERROR" "%y"
           (MiniLibc.ArgInt 5) [] []).
  reflexivity.
Defined.

(** ** Further facts about strings *)

Lemma str_length_app (a b : string) :
  String.length (a ++ b) = (String.length a + String.length b)%nat.
Proof. induction a as [|x a IH]; simpl; [reflexivity | now rewrite IH]. Qed.

Lemma str_length_fill (n : nat) (c : ascii) : String.length (str_fill n c) = n.
Proof. induction n as [|n IH]; simpl; [reflexivity | now rewrite IH]. Qed.

Lemma str_length_take (n : nat) (s : string) :
  String.length (str_take n s) = Nat.min n (String.length s).
Proof.
  revert s. induction n as [|n IH]; intros [|x s]; simpl; try reflexivity.
  now rewrite IH.
Qed.

Lemma str_drop_all (n : nat) (s : string) :
  (String.length s <= n)%nat -> str_drop n s = "".
Proof.
  revert s. induction n as [|n IH]; intros [|x s]; simpl; intros H;
    try reflexivity; try lia.
  apply IH. lia.
Qed.

Lemma str_take_app_r (p s : string) (k : nat) :
  str_take (String.length p + k) (p ++ s) = p ++ str_take k s.
Proof. induction p as [|x p IH]; simpl; [reflexivity | now rewrite IH]. Qed.

Lemma str_find_app_r (c : ascii) (p s : string) :
  str_find c p = None ->
  str_find c (p ++ s)
  = match str_find c s with
    | Some i => Some (String.length p + i)%nat
    | None => None
    end.
Proof.
  induction p as [|x p IH]; simpl.
  - intros _. now destruct (str_find c s).
  - destruct (Ascii.eqb x c); [discriminate|].
    destruct (str_find c p); [discriminate|].
    intros _. rewrite IH by reflexivity. now destruct (str_find c s).
Qed.

Lemma str_find_app_none (c : ascii) (p s : string) :
  str_find c p = None -> str_find c s = None -> str_find c (p ++ s) = None.
Proof. intros Hp Hs. now rewrite str_find_app_r, Hs. Qed.

Lemma str_find_none_count (c : ascii) (s : string) :
  str_find c s = None <-> str_count c s = O.
Proof.
  induction s as [|x s IH]; simpl; [tauto|].
  destruct (Ascii.eqb x c); [split; discriminate|].
  destruct (str_find c s); simpl.
  - split; [discriminate|]. intros H. apply IH in H. discriminate.
  - split; [intros _; now apply IH | reflexivity].
Qed.

Lemma str_find_split (c : ascii) (s : string) (pos : nat) :
  str_find c s = Some pos ->
  s = str_take pos s ++ String c (str_drop (pos + 1) s) /\
  str_find c (str_take pos s) = None.
Proof.
  revert pos. induction s as [|x s IH]; simpl; intros pos; [discriminate|].
  destruct (Ascii.eqb x c) eqn:E.
  - intros [= <-]. apply Ascii.eqb_eq in E. subst x. simpl. now split.
  - destruct (str_find c s) as [i|]; [|discriminate].
    intros [= <-]. destruct (IH i eq_refl) as [Hs Hn]. simpl.
    rewrite E, Hn. split; [now rewrite <- Hs | reflexivity].
Qed.

Lemma str_replace_app_prefix (p s : string) (pos len : nat) (r : string) :
  str_replace (p ++ s) (String.length p + pos) len r
  = p ++ str_replace s pos len r.
Proof.
  unfold str_replace.
  rewrite str_take_app_r, <- Nat.add_assoc, str_drop_app.
  now rewrite str_app_assoc.
Qed.

(** ** The scanner of [FormatString] *)

Lemma scan_specifier_valid (skipped : string) (c : ascii) (tail : string)
    (end_pos : nat) :
  str_all is_flag_width_precision skipped = true ->
  is_conversion_type c = true ->
  scan_specifier (skipped ++ String c tail) end_pos
  = ((end_pos + String.length skipped + 1)%nat, true).
Proof.
  intros Hs Hc. revert end_pos Hs.
  induction skipped as [|x skipped IH]; intros end_pos Hs; simpl.
  - rewrite Hc. f_equal. lia.
  - simpl in Hs. apply andb_prop in Hs. destruct Hs as [Hx Hs].
    rewrite (flag_is_not_conversion_type x Hx), Hx, IH by assumption.
    f_equal. lia.
Qed.

Lemma scan_specifier_shift (rest : string) (d k : nat) :
  scan_specifier rest (d + k)
  = ((d + fst (scan_specifier rest k))%nat, snd (scan_specifier rest k)).
Proof.
  revert k. induction rest as [|x rest IH]; intros k; simpl; [reflexivity|].
  destruct (is_conversion_type x); [simpl; f_equal; lia|].
  destruct (is_flag_width_precision x); [|reflexivity].
  rewrite <- IH. f_equal. lia.
Qed.

Lemma scan_specifier_bounds (rest : string) (k : nat) :
  (k <= fst (scan_specifier rest k) <= k + String.length rest)%nat /\
  (snd (scan_specifier rest k) = true -> (k < fst (scan_specifier rest k))%nat).
Proof.
  revert k. induction rest as [|x rest IH]; intros k; simpl.
  - split; [lia | discriminate].
  - destruct (is_conversion_type x); [simpl; split; lia|].
    destruct (is_flag_width_precision x); [|simpl; split; [lia | discriminate]].
    destruct (IH (S k)) as [Hb Hf]. split; [lia|].
    intros H. specialize (Hf H). lia.
Qed.

(** The characters the scanner walks over never include a percent sign. *)
Lemma scan_specifier_keeps_percents (rest : string) (k : nat) :
  str_count "%" (str_drop (fst (scan_specifier rest k) - k) rest)
  = str_count "%" rest.
Proof.
  revert k. induction rest as [|x rest IH]; intros k.
  - cbn [scan_specifier fst]. now rewrite Nat.sub_diag.
  - cbn [scan_specifier]. destruct (is_conversion_type x) eqn:Ec.
    + cbn [fst]. replace (S k - k)%nat with 1%nat by lia.
      cbn [str_drop str_count].
      destruct (Ascii.eqb x "%") eqn:E; [|reflexivity].
      apply Ascii.eqb_eq in E. subst x. discriminate Ec.
    + destruct (is_flag_width_precision x) eqn:Ef.
      * destruct (scan_specifier_bounds rest (S k)) as [[Hlo _] _].
        replace (fst (scan_specifier rest (S k)) - k)%nat
          with (S (fst (scan_specifier rest (S k)) - S k)) by lia.
        cbn [str_drop str_count]. rewrite IH.
        destruct (Ascii.eqb x "%") eqn:E; [|reflexivity].
        apply Ascii.eqb_eq in E. subst x. discriminate Ef.
      * cbn [fst]. now rewrite Nat.sub_diag.
Qed.

Lemma str_find_lt (c : ascii) (s : string) (pos : nat) :
  str_find c s = Some pos -> (pos < String.length s)%nat.
Proof.
  revert pos. induction s as [|x s IH]; simpl; intros pos; [discriminate|].
  destruct (Ascii.eqb x c); [intros [= <-]; lia|].
  destruct (str_find c s) as [i|]; [|discriminate].
  intros [= <-]. specialize (IH i eq_refl). lia.
Qed.

Lemma str_length_drop (n : nat) (s : string) :
  String.length (str_drop n s) = (String.length s - n)%nat.
Proof.
  revert s. induction n as [|n IH]; intros [|x s]; simpl; try reflexivity.
  apply IH.
Qed.

Lemma str_drop_drop (a b : nat) (s : string) :
  str_drop a (str_drop b s) = str_drop (b + a) s.
Proof.
  revert s. induction b as [|b IH]; intros s; [reflexivity|].
  destruct s as [|x s]; simpl; [now destruct a | apply IH].
Qed.

(** ** [FormatString], one argument after the other *)

Section FormatStringSteps.

Context {Arg : Type} (stream_insert : Arg -> string).

(** One step on a format whose first percent sign heads a specifier. *)
Lemma FormatString_step_specifier (pre skipped : string) (c : ascii)
    (tail : string) (first : Arg) (rest : list Arg) :
  str_find "%"%char pre = None ->
  str_all is_flag_width_precision skipped = true ->
  is_conversion_type c = true ->
  FormatString stream_insert
    (pre ++ String "%" (skipped ++ String c tail)) (first :: rest)
  = FormatString stream_insert (pre ++ stream_insert first ++ tail) rest.
Proof.
  intros Hpre Hs Hc. cbn [FormatString].
  rewrite (str_find_app _ pre _ Hpre), str_drop_app. cbn [str_drop].
  rewrite scan_specifier_valid by assumption.
  unfold str_replace. rewrite str_take_app.
  replace (String.length pre
           + (String.length pre + 1 + String.length skipped + 1
              - String.length pre))%nat
    with (String.length pre + S (String.length skipped + 1))%nat by lia.
  rewrite str_drop_app. cbn [str_drop]. rewrite str_drop_app.
  reflexivity.
Qed.

(** A format without a percent sign is returned as it is. *)
Lemma FormatString_no_percent (format : string) (args : list Arg) :
  str_find "%"%char format = None ->
  FormatString stream_insert format args = format.
Proof.
  intros H. induction args as [|a args IH]; [reflexivity|].
  cbn [FormatString]. now rewrite H.
Qed.

(** The text before the first percent sign stays in front. *)
Lemma FormatString_app_prefix (p s : string) (args : list Arg) :
  str_find "%"%char p = None ->
  FormatString stream_insert (p ++ s) args
  = p ++ FormatString stream_insert s args.
Proof.
  intros Hp. revert s. induction args as [|a args IH]; intros s;
    [reflexivity|].
  cbn [FormatString]. rewrite (str_find_app_r _ p s Hp).
  destruct (str_find "%"%char s) as [pos|]; [|apply IH].
  rewrite <- Nat.add_assoc, str_drop_app, scan_specifier_shift.
  destruct (scan_specifier (str_drop (pos + 1) s) (pos + 1)) as [e f].
  cbn [fst snd]. destruct f.
  - replace (String.length p + e - (String.length p + pos))%nat
      with (e - pos)%nat by lia.
    rewrite str_replace_app_prefix. apply IH.
  - rewrite str_replace_app_prefix. apply IH.
Qed.

(** What one argument does to a format that contains a percent sign: the
    text before the first percent sign is kept, the argument's rendering
    follows, and then a final part of the format that has as many percent
    signs as the format had after the first. *)
Lemma FormatString_step_shape (format : string) (pos : nat) (first : Arg) :
  str_find "%"%char format = Some pos ->
  exists tail : string,
    str_count "%" tail = str_count "%" (str_drop (pos + 1) format) /\
    forall rest : list Arg,
      FormatString stream_insert format (first :: rest)
      = FormatString stream_insert
          (str_take pos format ++ stream_insert first ++ tail) rest.
Proof.
  intros H.
  destruct (scan_specifier (str_drop (pos + 1) format) (pos + 1))
    as [e f] eqn:E.
  destruct f.
  - exists (str_drop (pos + (e - pos)) format). split.
    + pose proof (scan_specifier_keeps_percents
                    (str_drop (pos + 1) format) (pos + 1)) as K.
      pose proof (scan_specifier_bounds
                    (str_drop (pos + 1) format) (pos + 1)) as [[B _] _].
      rewrite E in K, B. cbn [fst] in K, B.
      rewrite str_drop_drop in K.
      replace (pos + 1 + (e - (pos + 1)))%nat with (pos + (e - pos))%nat
        in K by lia.
      exact K.
    + intros rest. cbn [FormatString]. now rewrite H, E.
  - exists (str_drop (pos + 1) format). split; [reflexivity|].
    intros rest. cbn [FormatString]. now rewrite H, E.
Qed.

End FormatStringSteps.

(** X1: when the first percent sign of the format heads a specifier (flag,
    width and precision characters, then a conversion type), [FormatString]
    replaces the whole specifier by the default stream rendering of the
    first argument and goes on with the other arguments; the flags, the
    width, the precision and the type are dropped, not applied.  With a
    single argument everything after that specifier is left as it is. *)
Theorem FormatString_specifier_replaced {Arg : Type}
    (stream_insert : Arg -> string) (pre skipped : string) (c : ascii)
    (tail : string) (first : Arg) (rest : list Arg) :
  str_find "%"%char pre = None ->
  str_all is_flag_width_precision skipped = true ->
  is_conversion_type c = true ->
  FormatString stream_insert
    (pre ++ String "%" (skipped ++ String c tail)) (first :: rest)
  = FormatString stream_insert (pre ++ stream_insert first ++ tail) rest
  /\
  FormatString stream_insert
    (pre ++ String "%" (skipped ++ String c tail)) [first]
  = pre ++ stream_insert first ++ tail.
Proof.
  intros Hpre Hs Hc.
  split; now rewrite FormatString_step_specifier.
Qed.

Lemma FormatString_specifier_replaced_witness :
  FormatString MiniLibc.insert "pi = %.2f, e = %.3f" [MiniLibc.ArgStr "3.14159"]
  = "pi = 3.14159, e = %.3f".
Proof.
  apply (FormatString_specifier_replaced MiniLibc.insert
           "pi = " ".2" "f" ", e = %.3f" (MiniLibc.ArgStr "3.14159") []);
    reflexivity.
Defined.

(** X2: a format without a percent sign comes back unchanged, whatever
    arguments are passed: arguments without a specifier are dropped
    silently. *)
Theorem FormatString_without_percent {Arg : Type}
    (stream_insert : Arg -> string) (format : string) (args : list Arg) :
  str_find "%"%char format = None ->
  FormatString stream_insert format args = format.
Proof. apply FormatString_no_percent. Qed.

Lemma FormatString_without_percent_witness :
  FormatString MiniLibc.insert "done"
    [MiniLibc.ArgInt 1; MiniLibc.ArgStr "x"] = "done".
Proof.
  apply (FormatString_without_percent MiniLibc.insert "done"
           [MiniLibc.ArgInt 1; MiniLibc.ArgStr "x"]).
  reflexivity.
Defined.

(** X3: [FormatString] never changes the text in front of the first
    percent sign: formatting a format is formatting what follows that text,
    with the same arguments, and putting the text back in front. *)
Theorem FormatString_keeps_prefix {Arg : Type}
    (stream_insert : Arg -> string) (p s : string) (args : list Arg) :
  str_find "%"%char p = None ->
  FormatString stream_insert (p ++ s) args
  = p ++ FormatString stream_insert s args.
Proof. apply FormatString_app_prefix. Qed.

Lemma FormatString_keeps_prefix_witness :
  FormatString MiniLibc.insert ("user " ++ "%s has %d items")
    [MiniLibc.ArgStr "ann"; MiniLibc.ArgInt 3]
  = "user " ++ FormatString MiniLibc.insert "%s has %d items"
                 [MiniLibc.ArgStr "ann"; MiniLibc.ArgInt 3].
Proof.
  apply (FormatString_keeps_prefix MiniLibc.insert "user " "%s has %d items"
           [MiniLibc.ArgStr "ann"; MiniLibc.ArgInt 3]).
  reflexivity.
Defined.

(** X4: when the rendering of the first argument contains no percent sign,
    substitution goes from left to right: the text up to the first
    specifier and the rendering that replaces it are final, and the other
    arguments format what follows the specifier. *)
Theorem FormatString_left_to_right {Arg : Type}
    (stream_insert : Arg -> string) (pre skipped : string) (c : ascii)
    (tail : string) (first : Arg) (rest : list Arg) :
  str_find "%"%char pre = None ->
  str_all is_flag_width_precision skipped = true ->
  is_conversion_type c = true ->
  str_find "%"%char (stream_insert first) = None ->
  FormatString stream_insert
    (pre ++ String "%" (skipped ++ String c tail)) (first :: rest)
  = pre ++ stream_insert first ++ FormatString stream_insert tail rest.
Proof.
  intros Hpre Hs Hc Hins.
  rewrite FormatString_step_specifier by assumption.
  rewrite <- str_app_assoc.
  rewrite FormatString_app_prefix by now apply str_find_app_none.
  apply str_app_assoc.
Qed.

Lemma FormatString_left_to_right_witness :
  FormatString MiniLibc.insert "id %05d, name %s"
    [MiniLibc.ArgInt 7; MiniLibc.ArgStr "ann"]
  = "id " ++ "7"
      ++ FormatString MiniLibc.insert ", name %s" [MiniLibc.ArgStr "ann"].
Proof.
  apply (FormatString_left_to_right MiniLibc.insert "id " "05" "d"
           ", name %s" (MiniLibc.ArgInt 7) [MiniLibc.ArgStr "ann"]);
    reflexivity.
Defined.

(** X5: [FormatString] searches the substituted string from its start for
    every argument, so a specifier inside the text of the first argument is
    the one the second argument replaces: the second argument lands inside
    the first argument's text, and the format's own next specifier stays. *)
Theorem FormatString_rescans_inserted_text {Arg : Type}
    (stream_insert : Arg -> string)
    (pre skipped : string) (c : ascii) (tail : string)
    (q skipped' : string) (c' : ascii) (r : string)
    (first second : Arg) (rest : list Arg) :
  str_find "%"%char pre = None ->
  str_all is_flag_width_precision skipped = true ->
  is_conversion_type c = true ->
  stream_insert first = q ++ String "%" (skipped' ++ String c' r) ->
  str_find "%"%char q = None ->
  str_all is_flag_width_precision skipped' = true ->
  is_conversion_type c' = true ->
  FormatString stream_insert
    (pre ++ String "%" (skipped ++ String c tail)) (first :: second :: rest)
  = FormatString stream_insert
      (pre ++ q ++ stream_insert second ++ r ++ tail) rest.
Proof.
  intros Hpre Hs Hc Hins Hq Hs' Hc'.
  rewrite FormatString_step_specifier by assumption.
  rewrite Hins.
  replace (pre ++ (q ++ String "%" (skipped' ++ String c' r)) ++ tail)
    with ((pre ++ q) ++ String "%" (skipped' ++ String c' (r ++ tail)))
    by (rewrite !str_app_assoc; cbn [append]; now rewrite str_app_assoc).
  rewrite FormatString_step_specifier
    by (try assumption; now apply str_find_app_none).
  now rewrite !str_app_assoc.
Qed.

Lemma FormatString_rescans_inserted_text_witness :
  FormatString MiniLibc.insert "%s and %s"
    [MiniLibc.ArgStr "50%d"; MiniLibc.ArgStr "x"]
  = "50x and %s".
Proof.
  apply (FormatString_rescans_inserted_text MiniLibc.insert
           "" "" "s" " and %s" "50" "" "d" ""
           (MiniLibc.ArgStr "50%d") (MiniLibc.ArgStr "x") []);
    reflexivity.
Defined.

(** X6: when no argument's rendering contains a percent sign, every
    argument uses up exactly one percent sign of the format as long as
    there is one: of [m] percent signs and [n] arguments, [m - n] percent
    signs are left, and none when there are at least as many arguments. *)
Theorem FormatString_percent_count {Arg : Type}
    (stream_insert : Arg -> string) (format : string) (args : list Arg) :
  (forall a : Arg, In a args -> str_find "%"%char (stream_insert a) = None) ->
  str_count "%" (FormatString stream_insert format args)
  = (str_count "%" format - List.length args)%nat.
Proof.
  revert format. induction args as [|a args IH]; intros format Hins.
  - cbn. lia.
  - assert (Ha : str_count "%" (stream_insert a) = O)
      by (apply str_find_none_count, Hins; now left).
    assert (Hrest : forall b, In b args ->
                      str_find "%"%char (stream_insert b) = None)
      by (intros b Hb; apply Hins; now right).
    destruct (str_find "%"%char format) as [pos|] eqn:E.
    + destruct (FormatString_step_shape stream_insert format pos a E)
        as (tail & Htail & Hstep).
      destruct (str_find_split _ _ _ E) as [Hsplit Hpre].
      apply str_find_none_count in Hpre.
      rewrite Hstep, (IH _ Hrest), !str_count_app, Ha, Hpre, Htail.
      rewrite Hsplit at 2. rewrite str_count_app, Hpre.
      cbn [str_count List.length]. rewrite Ascii.eqb_refl. lia.
    + rewrite FormatString_no_percent by exact E.
      apply str_find_none_count in E. rewrite E. reflexivity.
Qed.

Lemma FormatString_percent_count_witness :
  str_count "%"
    (FormatString MiniLibc.insert "%d of %d (%d%%)"
       [MiniLibc.ArgInt 1; MiniLibc.ArgInt 2])
  = 3%nat.
Proof.
  apply (FormatString_percent_count MiniLibc.insert "%d of %d (%d%%)"
           [MiniLibc.ArgInt 1; MiniLibc.ArgInt 2]).
  intros a [<-|[<-|[]]]; reflexivity.
Defined.

(** X7: the range that [FormatString] hands to [result.replace] lies inside
    the string: for the first percent sign at [pos], the scanner's
    [end_pos] satisfies [pos < end_pos <= result.length()], and a found
    specifier spans at least two characters. *)
Theorem FormatString_replaced_range_in_bounds (result : string) (pos : nat) :
  str_find "%"%char result = Some pos ->
  let scan := scan_specifier (str_drop (pos + 1) result) (pos + 1) in
  (pos < fst scan <= String.length result)%nat /\
  (snd scan = true -> (2 <= fst scan - pos)%nat).
Proof.
  intros H scan. subst scan.
  pose proof (str_find_lt _ _ _ H) as Hlt.
  destruct (scan_specifier_bounds (str_drop (pos + 1) result) (pos + 1))
    as [[Hlo Hhi] Hf].
  rewrite str_length_drop in Hhi.
  split; [lia|]. intros Hs. specialize (Hf Hs). lia.
Qed.

Lemma FormatString_replaced_range_in_bounds_witness :
  (3 < fst (scan_specifier (str_drop (3 + 1) "at %-8.3") (3 + 1)) <= 8)%nat.
Proof.
  apply (FormatString_replaced_range_in_bounds "at %-8.3" 3).
  reflexivity.
Defined.

(** ** [FormatPrintf] on success *)

Lemma str_take_all (n : nat) (s : string) :
  (String.length s <= n)%nat -> str_take n s = s.
Proof.
  revert s. induction n as [|n IH]; intros [|x s]; simpl; intros H;
    try reflexivity; try lia.
  rewrite IH by lia. reflexivity.
Qed.

Lemma str_store_exact (text : string) :
  str_store (text ++ str1 NUL) (str_fill (S (String.length text)) NUL)
  = text ++ str1 NUL.
Proof.
  unfold str_store.
  rewrite str_drop_all
    by (rewrite str_length_fill, str_length_app; simpl; lia).
  rewrite str_app_nil_r. apply str_take_all.
  rewrite str_length_fill, str_length_app. simpl. lia.
Qed.

Lemma str_length_resize (n : nat) (s : string) :
  String.length (str_resize n s) = n.
Proof.
  unfold str_resize.
  rewrite str_length_app, str_length_take, str_length_fill. lia.
Qed.

Lemma str_resize_drop_last (text : string) (c : ascii) :
  str_resize (String.length text) (text ++ str1 c) = text.
Proof.
  unfold str_resize. rewrite str_take_app, str_length_app.
  replace (String.length text - (String.length text + String.length (str1 c)))%nat
    with O by lia.
  apply str_app_nil_r.
Qed.

Lemma int_wrap_succ (size : Z) :
  0 <= size < INT_MAX -> int_wrap (size + 1) = size + 1.
Proof.
  intros H. apply (int_incr_in_range size). unfold INT_MIN. lia.
Qed.

Lemma FormatPrintf_text {Arg : Type}
    (vsnprintf : Z -> string -> list Arg -> Z * string)
    (format : string) (args : list Arg) (text : string) :
  fst (vsnprintf 0 (c_string format) args) = Z.of_nat (String.length text) ->
  Z.of_nat (String.length text) < INT_MAX ->
  snd (vsnprintf (Z.of_nat (String.length text) + 1) (c_string format) args)
  = text ++ str1 NUL ->
  FormatPrintf vsnprintf format args = Returns text.
Proof.
  intros Hsize Hmax Hstored. unfold FormatPrintf.
  rewrite Hsize, int_wrap_succ, Hstored by lia.
  destruct (Z.ltb_spec (Z.of_nat (String.length text)) 0) as [H|_]; [lia|].
  destruct (Z.ltb_spec (Z.of_nat (String.length text) + 1) 0) as [H|_]; [lia|].
  replace (Z.to_nat (Z.of_nat (String.length text) + 1))
    with (S (String.length text)) by lia.
  now rewrite str_store_exact, Nat2Z.id, str_resize_drop_last.
Qed.

(** X8: when [vsnprintf] behaves as the C library specifies, announcing the
    length of the formatted text when given no buffer and storing the text
    and a terminating NUL when given a buffer of that length plus one, and
    the text is shorter than [INT_MAX] characters, so that [size + 1] does
    not overflow, [FormatPrintf] returns exactly the formatted text,
    without the NUL, and the formatted [PrintColoredMessage] returns after
    printing it as the payload of its line. *)
Theorem FormatPrintf_returns_formatted_text {Arg : Type}
    (vsnprintf : Z -> string -> list Arg -> Z * string)
    (color : Z) (label format : string) (first : Arg) (args : list Arg)
    (text : string) (o : ostream) :
  fst (vsnprintf 0 (c_string format) (first :: args))
  = Z.of_nat (String.length text) ->
  Z.of_nat (String.length text) < INT_MAX ->
  snd (vsnprintf (Z.of_nat (String.length text) + 1) (c_string format)
         (first :: args))
  = text ++ str1 NUL ->
  FormatPrintf vsnprintf format (first :: args) = Returns text /\
  fst (PrintColoredMessage_fmt vsnprintf color label format first args o)
  = Returns tt /\
  written (snd (PrintColoredMessage_fmt vsnprintf color label format
                  first args o))
  = written o ++ Spec.colored_line (GetColorCode color) label text.
Proof.
  intros Hsize Hmax Hstored.
  pose proof (FormatPrintf_text vsnprintf format (first :: args) text
                Hsize Hmax Hstored) as E.
  rewrite (PrintColoredMessage_fmt_ops _ _ _ _ _ _ _ _ E).
  repeat split; [exact E|]. now line_written.
Qed.

Lemma FormatPrintf_returns_formatted_text_witness :
  written (snd (PrintColoredMessage_fmt (MiniLibc.vsnprintf MiniLibc.Reject)
                  YELLOW "INFO" "progress: %d%%" (MiniLibc.ArgInt 85) [] []))
  = String ESC "[33m[INFO] progress: 85%" ++ String ESC "[0m" ++ str1 LF.
Proof.
  apply (FormatPrintf_returns_formatted_text
           (MiniLibc.vsnprintf MiniLibc.Reject) YELLOW "INFO"
           "progress: %d%%" (MiniLibc.ArgInt 85) [] "progress: 85%" []);
    reflexivity.
Defined.

(** X9: whenever the sizing call of [vsnprintf] returns a size from 0 to
    [INT_MAX - 1], so that [size + 1] does not overflow, [FormatPrintf]
    returns, without an exception, a string of exactly that many
    characters, whatever the second call stores into the buffer. *)
Theorem FormatPrintf_length {Arg : Type}
    (vsnprintf : Z -> string -> list Arg -> Z * string)
    (format : string) (args : list Arg) :
  0 <= fst (vsnprintf 0 (c_string format) args) < INT_MAX ->
  exists result : string,
    FormatPrintf vsnprintf format args = Returns result /\
    Z.of_nat (String.length result)
    = fst (vsnprintf 0 (c_string format) args).
Proof.
  intros H. unfold FormatPrintf.
  rewrite int_wrap_succ by exact H.
  destruct (Z.ltb_spec (fst (vsnprintf 0 (c_string format) args)) 0)
    as [Hneg|_]; [lia|].
  destruct (Z.ltb_spec (fst (vsnprintf 0 (c_string format) args) + 1) 0)
    as [Hneg|_]; [lia|].
  eexists. split; [reflexivity|].
  rewrite str_length_resize. lia.
Qed.

Lemma FormatPrintf_length_witness :
  exists result : string,
    FormatPrintf (MiniLibc.vsnprintf MiniLibc.Echo) "%s: %!"
      [MiniLibc.ArgStr "load"] = Returns result /\
    Z.of_nat (String.length result) = 8.
Proof.
  apply (FormatPrintf_length (MiniLibc.vsnprintf MiniLibc.Echo) "%s: %!"
           [MiniLibc.ArgStr "load"]).
  split; [discriminate | reflexivity].
Defined.

(** ** The non-formatted overloads *)

(** X10: the [const char*] overload prints the characters before the first
    NUL of its argument and nothing of what follows it, and on these
    characters it performs the same stream operations as the
    [std::string] overload. *)
Theorem PrintColoredMessage_cstr_stops_at_NUL
    (color : Z) (label a b : string) (o : ostream) :
  str_find NUL a = None ->
  PrintColoredMessage_cstr color label (a ++ String NUL b) o
  = PrintColoredMessage_string color label a o
  /\
  PrintColoredMessage_cstr color label a o
  = PrintColoredMessage_string color label a o.
Proof.
  intros Ha.
  rewrite !PrintColoredMessage_cstr_ops, PrintColoredMessage_string_ops.
  now rewrite c_string_app_nul, c_string_no_nul.
Qed.

Lemma PrintColoredMessage_cstr_stops_at_NUL_witness :
  PrintColoredMessage_cstr RED "ERROR" ("disk" ++ String NUL "full") []
  = PrintColoredMessage_string RED "ERROR" "disk" [].
Proof.
  apply (PrintColoredMessage_cstr_stops_at_NUL RED "ERROR" "disk" "full" []).
  reflexivity.
Defined.

(** X11: the scalar overloads are the [std::string] overload applied to
    the scalar's text: the [char] overload to the one-character string, the
    [bool] overload to the word true or false, and (on a stream with its
    default formatting flags) the [int] overload to the decimal digits of
    the number, with a minus sign for a negative one.  All perform the same
    stream operations, newline and flush included. *)
Theorem scalar_overloads_print_as_strings
    (color : Z) (label : string) (ch : ascii) (b : bool) (value : Z)
    (o : ostream) :
  PrintColoredMessage_char color label ch o
  = PrintColoredMessage_string color label (str1 ch) o
  /\
  PrintColoredMessage_bool color label b o
  = PrintColoredMessage_string color label (if b then "true" else "false") o
  /\
  PrintColoredMessage_int color label value o
  = PrintColoredMessage_string color label
      (NilZero.string_of_int (Z.to_int value)) o.
Proof.
  rewrite !PrintColoredMessage_string_ops, PrintColoredMessage_bool_ops.
  repeat split.
  - unfold PrintColoredMessage_char. apply put_line.
  - unfold PrintColoredMessage_int. apply put_line.
Qed.

(** ** The progress indicator beyond one cycle *)

Lemma indicator_true_cell (color n : Z) (o : ostream) :
  INT_MIN <= n < INT_MAX ->
  fst (PrintSilentStatusIndicator color true n o)
  = if 100 <=? n then 1 else n + 1.
Proof.
  intros H. pose proof (int_incr_in_range n H) as Hi.
  destruct (Z.leb_spec 100 n).
  - now rewrite indicator_true_clear by lia.
  - rewrite indicator_true_render by lia. now rewrite Hi.
Qed.

Lemma indicator_true_emitted (color n : Z) (o : ostream) :
  snd (PrintSilentStatusIndicator color true n o)
  = (o ++ (if int_incr n >? 100 then clear_ops else [])
       ++ render_ops color (fst (PrintSilentStatusIndicator color true n o)))%list.
Proof.
  destruct (int_incr n >? 100) eqn:E.
  - apply Z.gtb_lt in E. now rewrite !indicator_true_clear by lia.
  - rewrite Z.gtb_ltb in E. apply Z.ltb_ge in E.
    now rewrite !indicator_true_render by lia.
Qed.

Lemma GetColorCode_no_newline (color : Z) :
  str_count LF (GetColorCode color) = O.
Proof. unfold GetColorCode. destruct (enumerator_of color) as [[]|]; reflexivity. Qed.

Lemma written_repeat_dot_newline (k : nat) :
  str_count LF (written (repeat (Put ".") k)) = O.
Proof. induction k as [|k IH]; simpl; [reflexivity | exact IH]. Qed.

Lemma render_ops_newline (color n : Z) :
  str_count LF (written (render_ops color n)) = O.
Proof.
  unfold render_ops. rewrite !written_app. cbn [written].
  rewrite !str_count_app, GetColorCode_no_newline, written_repeat_dot_newline.
  reflexivity.
Qed.

Lemma render_ops_last (pre : ostream) (color n : Z) (d : op) :
  last (pre ++ render_ops color n) d = Flush.
Proof.
  unfold render_ops.
  change [Put reset_code; Flush] with ([Put reset_code] ++ [Flush])%list.
  now rewrite !app_assoc, last_last.
Qed.

(** X12: the counter runs in cycles of 100.  From a cell holding a value
    between 0 and 100, the calls of any run of calls with flag true leave
    in the cell, in order, the values [(n + i) mod 100 + 1] for
    [i = 0, 1, 2, ...]: counting up to 100, then again from 1. *)
Theorem indicator_cycle (color : Z) (k : nat) (n : Z) (o : ostream) :
  0 <= n <= 100 ->
  fst (indicator_calls color (repeat true k) n o)
  = map (fun i : nat => (n + Z.of_nat i) mod 100 + 1) (seq 0 k).
Proof.
  revert n o. induction k as [|k IH]; intros n o Hn; [reflexivity|].
  cbn [repeat indicator_calls]. unfold bind.
  pose proof (indicator_true_cell color n o) as Hcell.
  destruct (PrintSilentStatusIndicator color true n o) as [n1 o1].
  cbn [fst] in Hcell.
  rewrite Hcell by (unfold INT_MIN, INT_MAX; lia). clear Hcell.
  set (n' := if 100 <=? n then 1 else n + 1).
  assert (Hn' : 0 <= n' <= 100)
    by (subst n'; destruct (Z.leb_spec 100 n); lia).
  specialize (IH n' o1 Hn').
  destruct (indicator_calls color (repeat true k) n' o1) as [l o2].
  cbn [fst] in IH. subst l. unfold ret. cbn [fst seq map].
  f_equal.
  - subst n'. destruct (Z.leb_spec 100 n).
    + replace n with 100 by lia. reflexivity.
    + rewrite Z.add_0_r, Z.mod_small by lia. reflexivity.
  - rewrite <- seq_shift, map_map. apply map_ext. intros i.
    f_equal. subst n'. destruct (Z.leb_spec 100 n).
    + replace n with 100 by lia.
      replace (100 + Z.of_nat (S i)) with (1 + Z.of_nat i + 1 * 100) by lia.
      now rewrite Z_mod_plus_full.
    + f_equal. lia.
Qed.

Lemma indicator_cycle_witness :
  nth 249 (fst (indicator_calls GREEN (repeat true 250) 0 [])) 0 = 50.
Proof.
  assert (H : 0 <= 0 <= 100) by lia.
  rewrite (indicator_cycle GREEN 250 0 [] H).
  reflexivity.
Defined.

(** X13: calls with flag false are transparent in a run of calls on one
    cell: the stream and the final value of the cell are those of the run
    with the false calls taken out. *)
Theorem indicator_false_calls_transparent
    (color : Z) (flags : list bool) (n : Z) (o : ostream) :
  snd (indicator_calls color flags n o)
  = snd (indicator_calls color (filter (fun b : bool => b) flags) n o)
  /\
  last (fst (indicator_calls color flags n o)) n
  = last (fst (indicator_calls color (filter (fun b : bool => b) flags) n o)) n.
Proof.
  revert n o. induction flags as [|[] flags IH]; intros n o.
  - split; reflexivity.
  - cbn [filter indicator_calls]. unfold bind.
    destruct (PrintSilentStatusIndicator color true n o) as [n1 o1].
    cbv beta iota. specialize (IH n1 o1).
    destruct (indicator_calls color flags n1 o1) as [l o2].
    destruct (indicator_calls color (filter (fun b : bool => b) flags) n1 o1)
      as [l' o2'].
    unfold ret. cbn [fst snd] in *. now rewrite !last_cons_default.
  - cbn [filter indicator_calls]. unfold bind.
    cbn [PrintSilentStatusIndicator]. unfold ret.
    cbv beta iota. specialize (IH n o).
    destruct (indicator_calls color flags n o) as [l o2].
    unfold ret. cbn [fst snd] in *. now rewrite last_cons_default.
Qed.

(** X14: a call with flag true on a cell holding any value below [INT_MAX]
    leaves 1 in a cell that held 100 or more and the value plus one in any
    other, so never more than 100; the number of dots it writes is the new
    value, and none when the new value is zero or negative. *)
Theorem indicator_true_from_any_value (color n : Z) (o : ostream) :
  INT_MIN <= n < INT_MAX ->
  let call := PrintSilentStatusIndicator color true n in
  fst (call o) = (if 100 <=? n then 1 else n + 1) /\
  fst (call o) <= 100 /\
  Z.of_nat (str_count "." (written (emitted call))) = Z.max 0 (fst (call o)).
Proof.
  intros H call. subst call.
  pose proof (indicator_true_cell color n o H) as Hcell.
  split; [exact Hcell|]. split.
  - rewrite Hcell. destruct (Z.leb_spec 100 n); lia.
  - unfold emitted. rewrite indicator_true_emitted. cbn [app].
    rewrite written_app, str_count_app, render_ops_dots.
    rewrite (indicator_true_cell color n [] H), Hcell.
    destruct (int_incr n >? 100); cbn [clear_ops written str_count]; cbn; lia.
Qed.

Lemma indicator_true_from_any_value_witness :
  fst (PrintSilentStatusIndicator CYAN true (-3) []) = -2 /\
  Z.of_nat (str_count "."
              (written (emitted (PrintSilentStatusIndicator CYAN true (-3)))))
  = 0.
Proof.
  assert (H : INT_MIN <= -3 < INT_MAX) by (unfold INT_MIN, INT_MAX; lia).
  destruct (indicator_true_from_any_value CYAN (-3) [] H) as (Hc & _ & Hd).
  split; [exact Hc | exact Hd].
Defined.

(** X15: a call with flag true keeps the display on one line: whatever the
    cell holds, the text it writes starts with a carriage return, contains
    no newline, and the last thing the call does is flush the stream. *)
Theorem indicator_stays_on_one_line (color n : Z) :
  let ops := emitted (PrintSilentStatusIndicator color true n) in
  (exists rest : string, written ops = String CR rest) /\
  str_count LF (written ops) = O /\
  last ops (Put "") = Flush.
Proof.
  intros ops. subst ops. unfold emitted.
  rewrite indicator_true_emitted. cbn [app].
  set (m := fst (PrintSilentStatusIndicator color true n [])).
  destruct (int_incr n >? 100); cbn [app clear_ops].
  - repeat split.
    + eexists. reflexivity.
    + cbn [written]. rewrite str_count_app, render_ops_newline. reflexivity.
    + apply (render_ops_last [Put clear_line; Flush]).
  - repeat split.
    + eexists. reflexivity.
    + apply render_ops_newline.
    + apply (render_ops_last []).
Qed.
